(** * daily-brief: the e-mail test sender ([test-send-email.py])

    A shallow embedding of the script and the properties of its
    configuration loader, report discovery and delivery step.

    Conventions of the embedding.
    - A Python [str] is a [string]; one [ascii] stands for one character
      (the code points below 256).  The status emoji of the script's own
      messages appear only inside literals, never in data the script
      inspects.
    - [os.environ] is a [gmap string string]: the mapping that the [os]
      module presents.  What the platform does with a name it refuses is
      outside the model.
    - The console, the files opened and the SMTP sessions started are
      components of the [world] that every step threads through. *)

From Stdlib Require Import Ascii String ZArith Lia.
From stdpp Require Import gmap strings list.

(** ** Python string methods used by the script *)

Module Str.

(** [str.isspace] on one character, for code points below 256:
    TAB LF VT FF CR, FS GS RS US, SPACE, NEL and NBSP. *)
Definition isspace (c : ascii) : bool :=
  match c with
  | "009" | "010" | "011" | "012" | "013"
  | "028" | "029" | "030" | "031" | " "
  | "133" | "160" => true
  | _ => false
  end%char.

Definition is_empty (s : string) : bool :=
  match s with EmptyString => true | String _ _ => false end.

Fixpoint lstrip (s : string) : string :=
  match s with
  | EmptyString => EmptyString
  | String c s' => if isspace c then lstrip s' else s
  end.

Fixpoint rstrip (s : string) : string :=
  match s with
  | EmptyString => EmptyString
  | String c s' =>
      let r := rstrip s' in
      if isspace c && is_empty r then EmptyString else String c r
  end.

(** [s.strip()] *)
Definition strip (s : string) : string := lstrip (rstrip s).

(** [s.startswith(c)] and [s.endswith(c)] for a one-character [c] *)
Definition startswith (c : ascii) (s : string) : bool :=
  match s with
  | EmptyString => false
  | String c' _ => Ascii.eqb c' c
  end.

Fixpoint endswith (c : ascii) (s : string) : bool :=
  match s with
  | EmptyString => false
  | String c' EmptyString => Ascii.eqb c' c
  | String _ s' => endswith c s'
  end.

(** [c in s] *)
Fixpoint contains (c : ascii) (s : string) : bool :=
  match s with
  | EmptyString => false
  | String c' s' => Ascii.eqb c' c || contains c s'
  end.

(** [s.split(c, 1)]: the text before the first [c] and the text after
    it; [None] when [c] does not occur (Python then returns the
    one-element list, which the script never unpacks). *)
Fixpoint split1 (c : ascii) (s : string) : option (string * string) :=
  match s with
  | EmptyString => None
  | String c' s' =>
      if Ascii.eqb c' c then Some (EmptyString, s')
      else match split1 c s' with
           | Some (a, b) => Some (String c' a, b)
           | None => None
           end
  end.

Fixpoint removelast (s : string) : string :=
  match s with
  | EmptyString => EmptyString
  | String _ EmptyString => EmptyString
  | String c s' => String c (removelast s')
  end.

(** [s[1:-1]] *)
Definition slice_1_m1 (s : string) : string :=
  match s with
  | EmptyString => EmptyString
  | String _ s' => removelast s'
  end.

(** [c * n] *)
Fixpoint replicate (n : nat) (c : ascii) : string :=
  match n with
  | O => EmptyString
  | S n' => String c (replicate n' c)
  end.

(** [sep.join(ls)] *)
Definition join (sep : string) (ls : list string) : string :=
  String.concat sep ls.

(** [s.endswith(suf)] for a string [suf] *)
Fixpoint has_suffix (suf s : string) : bool :=
  String.eqb s suf
  || match s with
     | EmptyString => false
     | String _ s' => has_suffix suf s'
     end.

(** [s.startswith(pre)], returning what follows the prefix *)
Fixpoint after_prefix (pre s : string) : option string :=
  match pre, s with
  | EmptyString, _ => Some s
  | String a pre', String b s' =>
      if Ascii.eqb a b then after_prefix pre' s' else None
  | String _ _, EmptyString => None
  end.

End Str.

Definition dquote : ascii := "034"%char.
Definition squote : ascii := "'"%char.
Definition hash : ascii := "#"%char.
Definition equals : ascii := "="%char.
Definition star : ascii := "*"%char.

(** ** The configuration loader: one line of [.env] *)

(** The two characters lines 99-102 treat as quotes. *)
Definition is_quote (q : ascii) : Prop := q = dquote ∨ q = squote.

(** Lines 99-102: remove quotes if present. *)
Definition unquote (value : string) : string :=
  if Str.startswith dquote value && Str.endswith dquote value
  then Str.slice_1_m1 value
  else if Str.startswith squote value && Str.endswith squote value
  then Str.slice_1_m1 value
  else value.

(** Lines 94-96: [key, value = line.split('=', 1)], both stripped.  The
    argument is the line as line 88 left it. *)
Definition key_value (line : string) : option (string * string) :=
  match Str.split1 equals line with
  | Some (key, value) => Some (Str.strip key, Str.strip value)
  | None => None
  end.

(** Lines 88-106: what one line of the file contributes; [None] is the
    [continue] of lines 91 and 106. *)
Definition parse_line (line : string) : option (string * string) :=
  let line := Str.strip line in
  if Str.startswith hash line || Str.is_empty line
     || negb (Str.contains equals line)
  then None
  else
    match key_value line with
    | Some (key, value) =>
        let value := unquote value in
        if Str.is_empty value then None else Some (key, value)
    | None => None
    end.

(** ** The world the script runs in *)

(** One entry of the [output/] directory: its name, the [st_mtime] that
    [stat] reports and its text.  Timestamps are only ever compared, so
    an integer stands for them. *)
Record file := File {
  name : string;
  st_mtime : Z;
  content : string
}.

(** The message object built in lines 55-62. *)
Record mime_message := Message {
  subtype : string;
  Subject : string;
  From : string;
  To : string;
  parts : list (string * string)   (* MIMEText(payload, subtype) *)
}.

(** One use of [smtplib.SMTP] as lines 66-69 make it. *)
Record smtp_session := Session {
  smtp_server : string;
  port : Z;
  login_user : string;
  login_password : string;
  mail_from : string;
  rcpt_to : string;
  data : mime_message
}.

(** How the [try] block of lines 53-73 ends: it runs to its last
    statement, or some statement raises an [Exception] whose [str] is
    [e]. *)
Inductive outcome :=
  | Completes
  | Raises (e : string).

(** What the script finds and cannot change: the lines of [.env] as
    iterating the file yields them ([None] when the file does not
    exist), the entries of [output/] in the order the directory listing
    gives them, and the behaviour of the mail transport. *)
Record host := Host {
  dotenv : option (list string);
  output_dir : list file;
  transport : smtp_session → outcome
}.

(** What the script changes or leaves a trace in. *)
Record world := World {
  environ : gmap string string;
  stdout : list string;            (* lines printed, oldest first *)
  opened : list string;            (* paths given to [open], oldest first *)
  smtp_log : list smtp_session     (* sessions started *)
}.

(** A step of the script: a result and the world it leaves. *)
Definition M (A : Type) : Type := world → A * world.

#[global] Instance M_ret : MRet M := λ A a w, (a, w).
#[global] Instance M_bind : MBind M :=
  λ A B k m w, let (a, w') := m w in k a w'.

Definition print (s : string) : M unit :=
  λ w, (tt, World (environ w) (stdout w ++ [s]) (opened w) (smtp_log w)).

(** [os.environ[key] = value] *)
Definition setenv (key value : string) : M unit :=
  λ w, (tt, World (<[key := value]> (environ w)) (stdout w) (opened w)
                  (smtp_log w)).

(** Reading [os.environ] *)
Definition getenviron : M (gmap string string) :=
  λ w, (environ w, w).

(** [open(path, 'r')] followed by reading; the text comes from the
    caller, who holds the file. *)
Definition open (path : string) : M unit :=
  λ w, (tt, World (environ w) (stdout w) (opened w ++ [path]) (smtp_log w)).

(** The [try] block of lines 53-73 run on the message and the session
    it builds: the log keeps what the block was entered with, the result
    is how it ends. *)
Definition smtp (h : host) (s : smtp_session) : M outcome :=
  λ w, (transport h s,
        World (environ w) (stdout w) (opened w) (smtp_log w ++ [s])).

(** [for x in xs: body(x)] *)
Fixpoint for_each {A} (xs : list A) (body : A → M unit) : M unit :=
  match xs with
  | [] => mret tt
  | x :: xs' => body x ;; for_each xs' body
  end.

(** ** [load_env_file] *)

(** Line 110: the masked preview of a loaded value. *)
Definition preview (key value : string) : string :=
  "   Loaded: " +:+ key +:+ "="
  +:+ Str.replicate (Nat.min (String.length value) 8) star +:+ "...".

(** The body of the loop of lines 87-110. *)
Definition load_line (line : string) : M unit :=
  match parse_line line with
  | None => mret tt
  | Some (key, value) =>
      setenv key value ;;
      print (preview key value)
  end.

Definition load_env_file (h : host) : M unit :=
  match dotenv h with
  | None => print "No .env file found"
  | Some lines =>
      open ".env" ;;
      for_each lines load_line ;;
      print "✅ Loaded environment variables from .env file"
  end.

(** ** [send_test_email] *)

(** [fnmatch] of a name against [daily-brief-*.html] *)
Definition matches_pattern (n : string) : bool :=
  match Str.after_prefix "daily-brief-" n with
  | Some rest => Str.has_suffix ".html" rest
  | None => false
  end.

(** [list(output_dir.glob("daily-brief-*.html"))] *)
Definition glob (dir : list file) : list file :=
  filter (λ f, matches_pattern (name f) = true) dir.

(** [max(first :: rest, key=lambda f: f.stat().st_mtime)]: the running
    maximum is replaced only by a strictly greater key. *)
Definition max_by_mtime (first : file) (rest : list file) : file :=
  fold_left (λ best f, if (st_mtime best <? st_mtime f)%Z then f else best)
            rest first.

(** [str(latest_file)] *)
Definition path (f : file) : string := "output/" +:+ name f.

Definition required_vars : list string :=
  ["GMAIL_USERNAME"; "GMAIL_APP_PASSWORD"; "EMAIL_RECIPIENT"].

(** [not os.getenv(var)] *)
Definition unset (env : gmap string string) (var : string) : bool :=
  match env !! var with
  | None => true
  | Some v => Str.is_empty v
  end.

(** [os.environ[var]] once line 33 has let the run through; the default
    is never used. *)
Definition environ_get (env : gmap string string) (var : string) : string :=
  default "" (env !! var).

(** Line 31: the required names that [os.getenv] finds unset or empty,
    in the order of [required_vars]. *)
Definition missing_vars (env : gmap string string) : list string :=
  filter (λ var, unset env var = true) required_vars.

Definition send_test_email (h : host) : M bool :=
  match glob (output_dir h) with
  | [] =>
      print "❌ No HTML files found. Run 'npm run dev' first." ;;
      mret false
  | first :: rest =>
      let latest_file := max_by_mtime first rest in
      print ("📧 Using HTML file: " +:+ path latest_file) ;;
      open (path latest_file) ;;
      let html_content := content latest_file in
      env ← getenviron ;
      let missing_vars := missing_vars env in
      match missing_vars with
      | _ :: _ =>
          print ("❌ Missing environment variables: "
                 +:+ Str.join ", " missing_vars) ;;
          print "Set these in your .env file:" ;;
          for_each missing_vars
            (λ var, print ("  " +:+ var +:+ "=your_value_here")) ;;
          mret false
      | [] =>
          let sender_email := environ_get env "GMAIL_USERNAME" in
          let password := environ_get env "GMAIL_APP_PASSWORD" in
          let receiver_email := environ_get env "EMAIL_RECIPIENT" in
          let subject := "Daily Brief - Test Email" in
          print "📤 Sending test email..." ;;
          print ("   From: " +:+ sender_email) ;;
          print ("   To: " +:+ receiver_email) ;;
          print ("   Subject: " +:+ subject) ;;
          r ← smtp h
                (Session "smtp.gmail.com" 587 sender_email password
                   sender_email receiver_email
                   (Message "alternative" subject
                      ("Daily Brief Bot <" +:+ sender_email +:+ ">")
                      receiver_email [("html", html_content)])) ;
          match r with
          | Completes =>
              print "✅ HTML email sent successfully!" ;;
              print "🔍 Check your email client to verify HTML rendering" ;;
              mret true
          | Raises e =>
              print ("❌ Failed to send email: " +:+ e) ;;
              mret false
          end
      end
  end.

(** ** [__main__] *)

(** The exit status given to [sys.exit]. *)
Definition main (h : host) : M Z :=
  load_env_file h ;;
  success ← send_test_email h ;
  mret (if (success : bool) then 0 else 1)%Z.

(** ** Vocabulary of the statements *)

(** The assignments a file performs, in order: one per line that
    [parse_line] does not skip. *)
Definition entries (lines : list string) : list (string * string) :=
  omap parse_line lines.

(** The environment after a sequence of assignments. *)
Definition assign_all (env : gmap string string)
    (es : list (string * string)) : gmap string string :=
  foldl (λ env kv, <[kv.1 := kv.2]> env) env es.

(** The session lines 41-69 build from the environment and the text of
    the report. *)
Definition session_for (env : gmap string string) (html_content : string)
    : smtp_session :=
  Session "smtp.gmail.com" 587
    (environ_get env "GMAIL_USERNAME") (environ_get env "GMAIL_APP_PASSWORD")
    (environ_get env "GMAIL_USERNAME") (environ_get env "EMAIL_RECIPIENT")
    (Message "alternative" "Daily Brief - Test Email"
       ("Daily Brief Bot <" +:+ environ_get env "GMAIL_USERNAME" +:+ ">")
       (environ_get env "EMAIL_RECIPIENT") [("html", html_content)]).

(** The line printed for one missing name (line 37). *)
Definition hint_line (var : string) : string :=
  "  " +:+ var +:+ "=your_value_here".


(** * Properties *)

(** ** Facts about the string methods *)

Section StrFacts.

#[local] Arguments String.append !_ _ / : simpl nomatch.

Lemma is_empty_true (s : string) : Str.is_empty s = true ↔ s = "".
Proof. by destruct s. Qed.

Lemma is_empty_false (s : string) : Str.is_empty s = false ↔ s ≠ "".
Proof. by destruct s. Qed.

Lemma lstrip_idemp (s : string) : Str.lstrip (Str.lstrip s) = Str.lstrip s.
Proof.
  induction s as [|c s IH]; simpl; [done|].
  destruct (Str.isspace c) eqn:Hc; [done|]. simpl. by rewrite Hc.
Qed.

Lemma rstrip_idemp (s : string) : Str.rstrip (Str.rstrip s) = Str.rstrip s.
Proof.
  induction s as [|c s IH]; simpl; [done|].
  destruct (Str.isspace c) eqn:Hc; simpl.
  - destruct (Str.rstrip s) eqn:Hr; simpl; [done|].
    rewrite Hc. simpl in IH. rewrite IH. by destruct (Str.isspace _ && _).
  - rewrite Hc. simpl. by rewrite IH.
Qed.

(** Stripping the two ends in either order gives the same text. *)
Lemma rstrip_lstrip (s : string) :
  Str.rstrip (Str.lstrip s) = Str.lstrip (Str.rstrip s).
Proof.
  induction s as [|c s IH]; simpl; [done|].
  destruct (Str.isspace c) eqn:Hc; simpl.
  - rewrite IH. destruct (Str.rstrip s); simpl; [done | by rewrite Hc].
  - by rewrite Hc.
Qed.

Lemma strip_lstrip (s : string) : Str.strip (Str.lstrip s) = Str.strip s.
Proof. unfold Str.strip. by rewrite rstrip_lstrip, lstrip_idemp. Qed.

Lemma strip_rstrip (s : string) : Str.strip (Str.rstrip s) = Str.strip s.
Proof. unfold Str.strip. by rewrite rstrip_idemp. Qed.

Lemma lstrip_app_nonspace (a : string) (c : ascii) (b : string) :
  Str.isspace c = false →
  Str.lstrip (a +:+ String c b) = Str.lstrip a +:+ String c b.
Proof.
  intros Hc. induction a as [|x a IH]; simpl; [by rewrite Hc|].
  by destruct (Str.isspace x).
Qed.

Lemma rstrip_app_nonspace (a : string) (c : ascii) (b : string) :
  Str.isspace c = false →
  Str.rstrip (a +:+ String c b) = a +:+ String c (Str.rstrip b).
Proof.
  intros Hc. induction a as [|x a IH]; simpl.
  - by rewrite Hc.
  - rewrite IH. destruct a; simpl; by rewrite andb_false_r.
Qed.


Lemma contains_app (c : ascii) (a b : string) :
  Str.contains c (a +:+ b) = Str.contains c a || Str.contains c b.
Proof.
  induction a as [|x a IH]; simpl; [done|]. by rewrite IH, orb_assoc.
Qed.

Lemma contains_lstrip (c : ascii) (s : string) :
  Str.contains c s = false → Str.contains c (Str.lstrip s) = false.
Proof.
  induction s as [|x s IH]; simpl; [done|].
  intros [H1 H2]%orb_false_iff. destruct (Str.isspace x); [auto|].
  simpl. by rewrite H1, H2.
Qed.

Lemma split1_app (c : ascii) (a b : string) :
  Str.contains c a = false →
  Str.split1 c (a +:+ String c b) = Some (a, b).
Proof.
  induction a as [|x a IH]; simpl.
  - intros _. by rewrite Ascii.eqb_refl.
  - intros [H1 H2]%orb_false_iff. by rewrite H1, IH.
Qed.

Lemma split1_Some (c : ascii) (s a b : string) :
  Str.split1 c s = Some (a, b) →
  s = a +:+ String c b ∧ Str.contains c a = false.
Proof.
  revert a. induction s as [|x s IH]; intros a; simpl; [done|].
  destruct (Ascii.eqb x c) eqn:Hx.
  - apply Ascii.eqb_eq in Hx as ->. by intros [= <- <-].
  - destruct (Str.split1 c s) as [[a' b']|]; [|done].
    intros [= <- <-]. destruct (IH a' eq_refl) as [-> ?].
    simpl. by rewrite Hx.
Qed.

Lemma contains_split1 (c : ascii) (s : string) :
  Str.contains c s = true → is_Some (Str.split1 c s).
Proof.
  induction s as [|x s IH]; simpl; [done|].
  destruct (Ascii.eqb x c); simpl; [by eexists|].
  intros [[a b] ->]%IH. by eexists.
Qed.

Lemma contains_rstrip (c : ascii) (s : string) :
  Str.contains c s = false → Str.contains c (Str.rstrip s) = false.
Proof.
  induction s as [|x s IH]; simpl; [done|].
  intros [H1 H2]%orb_false_iff.
  destruct (Str.isspace x && _); simpl; [done|]. by rewrite H1, IH.
Qed.

Lemma contains_strip (c : ascii) (s : string) :
  Str.contains c s = false → Str.contains c (Str.strip s) = false.
Proof. intros. by apply contains_lstrip, contains_rstrip. Qed.

(** [strip] leaves the first character that is not white space first. *)
Lemma startswith_strip (c : ascii) (s : string) :
  Str.startswith c (Str.strip s) = Str.startswith c (Str.lstrip s).
Proof.
  unfold Str.strip. rewrite <- rstrip_lstrip.
  induction s as [|x s IH]; simpl; [done|].
  destruct (Str.isspace x) eqn:Hx; [done|]. simpl. by rewrite Hx.
Qed.

Lemma startswith_app_cons (c : ascii) (a : string) (d : ascii) (b : string) :
  Str.startswith c (a +:+ String d b)
  = if Str.is_empty a then Ascii.eqb d c else Str.startswith c a.
Proof. by destruct a. Qed.

Lemma endswith_app_last (c : ascii) (a : string) (d : ascii) :
  Str.endswith c (a +:+ String d "") = Ascii.eqb d c.
Proof.
  induction a as [|x a IH]; simpl; [done|].
  rewrite IH. by destruct a.
Qed.

Lemma removelast_app_last (a : string) (d : ascii) :
  Str.removelast (a +:+ String d "") = a.
Proof.
  induction a as [|x a IH]; simpl; [done|].
  rewrite IH. by destruct a.
Qed.

End StrFacts.

(** ** One line of the configuration file *)

Section Lines.

#[local] Arguments String.append !_ _ / : simpl nomatch.

Lemma isspace_equals : Str.isspace equals = false.
Proof. reflexivity. Qed.

(** A line is stripped to the stripped ends around its first [=]. *)
Lemma strip_around_equals (before after : string) :
  Str.strip (before +:+ String equals after)
  = Str.lstrip before +:+ String equals (Str.rstrip after).
Proof.
  unfold Str.strip.
  rewrite rstrip_app_nonspace, lstrip_app_nonspace; auto using isspace_equals.
Qed.

Lemma key_value_around_equals (before after : string) :
  Str.contains equals before = false →
  key_value (Str.strip (before +:+ String equals after))
  = Some (Str.strip before, Str.strip after).
Proof.
  intros Hb. rewrite strip_around_equals. unfold key_value.
  rewrite split1_app by by apply contains_lstrip.
  by rewrite strip_lstrip, strip_rstrip.
Qed.

(** What [parse_line] makes of a line with a first [=]. *)
Lemma parse_line_around_equals (before after : string) :
  Str.contains equals before = false →
  parse_line (before +:+ String equals after)
  = if Str.startswith hash (Str.strip before) then None
    else if Str.is_empty (unquote (Str.strip after)) then None
    else Some (Str.strip before, unquote (Str.strip after)).
Proof.
  intros Hb. unfold parse_line.
  rewrite key_value_around_equals by done.
  rewrite strip_around_equals, startswith_strip, startswith_app_cons.
  rewrite contains_app. simpl. rewrite orb_true_r. simpl.
  destruct (Str.lstrip before) eqn:Hl; simpl; [done|].
  by rewrite !orb_false_r.
Qed.



Lemma parse_line_no_separator (line : string) :
  Str.contains equals line = false → parse_line line = None.
Proof.
  intros H. unfold parse_line. rewrite contains_strip by done.
  simpl. by rewrite orb_true_r.
Qed.

Lemma first_equals (line : string) :
  Str.contains equals line = true →
  ∃ before after,
    line = before +:+ String equals after
    ∧ Str.contains equals before = false.
Proof.
  intros [[a b] Hs]%contains_split1.
  exists a, b. by apply split1_Some.
Qed.

(** The loop body writes exactly what [parse_line] found. *)
Lemma load_line_Some (line key value : string) (w : world) :
  parse_line line = Some (key, value) →
  load_line line w
  = (tt, World (<[key := value]> (environ w))
               (stdout w ++ [preview key value]) (opened w) (smtp_log w)).
Proof. intros H. unfold load_line. by rewrite H. Qed.

Lemma load_line_None (line : string) (w : world) :
  parse_line line = None → load_line line w = (tt, w).
Proof. intros H. unfold load_line. by rewrite H. Qed.

(** *** Quote removal *)

Lemma unquote_pair (q : ascii) (body : string) :
  is_quote q → unquote (String q (body +:+ String q "")) = body.
Proof.
  intros Hq.
  assert (Str.startswith q (String q (body +:+ String q "")) = true) as Hs
    by apply Ascii.eqb_refl.
  assert (Str.endswith q (String q (body +:+ String q "")) = true) as He.
  { change (String q (body +:+ String q ""))
      with (String q body +:+ String q "").
    rewrite endswith_app_last. apply Ascii.eqb_refl. }
  assert (Str.slice_1_m1 (String q (body +:+ String q "")) = body) as Hm
    by apply removelast_app_last.
  unfold unquote. destruct Hq as [-> | ->].
  - by rewrite Hs, He.
  - rewrite Hs, He, Hm. by destruct (_ && _).
Qed.

Lemma unquote_single (q : ascii) : is_quote q → unquote (String q "") = "".
Proof. by intros [-> | ->]. Qed.

Lemma unquote_cases (value : string) :
  (∃ q, is_quote q ∧ Str.startswith q value = true
        ∧ Str.endswith q value = true
        ∧ unquote value = Str.slice_1_m1 value)
  ∨ ((∀ q, is_quote q →
        Str.startswith q value && Str.endswith q value = false)
     ∧ unquote value = value).
Proof.
  unfold unquote.
  destruct (Str.startswith dquote value && Str.endswith dquote value) eqn:Hd.
  { left. exists dquote. apply andb_true_iff in Hd as [??].
    repeat split; auto. by left. }
  destruct (Str.startswith squote value && Str.endswith squote value) eqn:Hs.
  { left. exists squote. apply andb_true_iff in Hs as [??].
    repeat split; auto. by right. }
  right. split; [|done]. by intros q [-> | ->].
Qed.

Lemma endswith_inv (q : ascii) (s : string) :
  Str.endswith q s = true → ∃ body, s = body +:+ String q "".
Proof.
  induction s as [|x s IH]; simpl; [done|].
  destruct s as [|y s].
  - intros ->%Ascii.eqb_eq. by exists "".
  - intros [body ->]%IH. by exists (String x body).
Qed.

Lemma quoted_shape (q : ascii) (value : string) :
  Str.startswith q value = true → Str.endswith q value = true →
  value = String q "" ∨ ∃ body, value = String q (body +:+ String q "").
Proof.
  destruct value as [|c v]; simpl; [done|].
  intros ->%Ascii.eqb_eq He. destruct v as [|y v]; [by left|].
  right. apply endswith_inv in He as [body ->]. by exists body.
Qed.




(** C10: quote removal takes off exactly one surrounding pair, and
    only when the value begins and ends with the same quote character:
    a pair around any body leaves that body, even a quoted one; a value
    whose ends are not the same quote is kept as it is; a value that is
    one quote character alone becomes empty and its line writes
    nothing; and no other value is changed. *)
Theorem unquote_one_matching_pair :
  (∀ q body, is_quote q → unquote (String q (body +:+ String q "")) = body)
  ∧ (∀ value,
       (∀ q, is_quote q →
          Str.startswith q value && Str.endswith q value = false) →
       unquote value = value)
  ∧ (∀ q, is_quote q →
       unquote (String q "") = ""
       ∧ ∀ KEY w, Str.contains equals KEY = false →
           load_line (KEY +:+ String equals (String q "")) w = (tt, w))
  ∧ (∀ value, unquote value ≠ value →
       ∃ q, is_quote q
            ∧ (value = String q ""
               ∨ ∃ body, value = String q (body +:+ String q "")))
  ∧ unquote (String dquote "abc'") = String dquote "abc'"
  ∧ unquote (String dquote (String dquote ("abc" +:+ String dquote
                                             (String dquote ""))))
    = String dquote ("abc" +:+ String dquote "").
Proof.
  split; [|split; [|split; [|split; [|split]]]]; try reflexivity.
  - intros q body Hq. by apply unquote_pair.
  - intros value Hno. by destruct (unquote_cases value) as [(q&Hq&Hs&He&_)|[_ ?]];
      [specialize (Hno q Hq); rewrite Hs, He in Hno|].
  - intros q Hq. split; [by apply unquote_single|].
    intros KEY w HK. apply load_line_None.
    rewrite parse_line_around_equals by done.
    assert (Str.strip (String q "") = String q "") as ->
      by by destruct Hq as [-> | ->].
    rewrite unquote_single by done. by destruct (Str.startswith _ _).
  - intros value Hne.
    destruct (unquote_cases value) as [(q&Hq&Hs&He&_)|[_ ?]]; [|done].
    exists q. split; [done|]. by apply quoted_shape.
Qed.

Lemma unquote_one_matching_pair_witness :
  unquote (String squote ("a b" +:+ String squote "")) = "a b"
  ∧ unquote "it's" = "it's"
  ∧ load_line (String "K" (String equals (String dquote ""))) (World ∅ [] [] [])
    = (tt, World ∅ [] [] []).
Proof.
  destruct unquote_one_matching_pair as (Hpair & Hkeep & Hsingle & _).
  split; [|split].
  - apply (Hpair squote "a b"). by right.
  - apply (Hkeep "it's"). by intros q [-> | ->].
  - apply (proj2 (Hsingle dquote (or_introl eq_refl)) "K"). reflexivity.
Defined.



End Lines.

(** ** The configuration loader *)

Section Loader.

#[local] Arguments String.append !_ _ / : simpl nomatch.


Lemma for_each_load_line (lines : list string) (w : world) :
  for_each lines load_line w
  = (tt, World (assign_all (environ w) (entries lines))
               (stdout w ++ map (λ kv, preview kv.1 kv.2) (entries lines))
               (opened w) (smtp_log w)).
Proof.
  revert w. induction lines as [|line lines IH]; intros w.
  - simpl. rewrite app_nil_r. by destruct w.
  - change (for_each (line :: lines) load_line w)
      with (let (_, w') := load_line line w in for_each lines load_line w').
    unfold entries, assign_all in *. simpl.
    destruct (parse_line line) as [[key value]|] eqn:Hp.
    + erewrite load_line_Some by done. rewrite IH. simpl.
      by rewrite <- app_assoc.
    + rewrite load_line_None by done. by rewrite IH.
Qed.

Lemma load_env_file_Some (h : host) (lines : list string) (w : world) :
  dotenv h = Some lines →
  load_env_file h w
  = (tt, World (assign_all (environ w) (entries lines))
               (stdout w ++ map (λ kv, preview kv.1 kv.2) (entries lines)
                ++ ["✅ Loaded environment variables from .env file"])
               (opened w ++ [".env"]) (smtp_log w)).
Proof.
  intros Hd. unfold load_env_file. rewrite Hd.
  unfold mbind, M_bind, open. rewrite for_each_load_line.
  unfold print. simpl. by rewrite <- app_assoc.
Qed.

Lemma load_env_file_None (h : host) (w : world) :
  dotenv h = None →
  load_env_file h w
  = (tt, World (environ w) (stdout w ++ ["No .env file found"])
               (opened w) (smtp_log w)).
Proof. intros Hd. unfold load_env_file. by rewrite Hd. Qed.


Lemma assign_all_frame (env : gmap string string) es (k : string) :
  k ∉ es.*1 → assign_all env es !! k = env !! k.
Proof.
  revert env. induction es as [|[k' v'] es IH]; intros env Hk; [done|].
  simpl in *. apply not_elem_of_cons in Hk as [Hne Hk].
  rewrite IH by done. by rewrite lookup_insert_ne.
Qed.







(** C8: when [.env] does not exist the loader changes nothing in the
    environment, opens nothing, prints the notice, and the run goes on
    to [send_test_email] in that world. *)
Theorem absent_dotenv_is_reported (h : host) (w : world) :
  dotenv h = None →
  load_env_file h w
  = (tt, World (environ w) (stdout w ++ ["No .env file found"])
               (opened w) (smtp_log w))
  ∧ main h w
    = (let r := send_test_email h
                  (World (environ w) (stdout w ++ ["No .env file found"])
                     (opened w) (smtp_log w)) in
       ((if r.1 then 0 else 1)%Z, r.2)).
Proof.
  intros Hd. split; [by apply load_env_file_None|].
  unfold main, mbind, M_bind. rewrite load_env_file_None by done.
  by destruct (send_test_email _ _).
Qed.

Lemma absent_dotenv_is_reported_witness :
  load_env_file (Host None [] (λ _, Completes))
    (World {["HOME" := "/root"]} [] [] [])
  = (tt, World {["HOME" := "/root"]} ["No .env file found"] [] [])
  ∧ main (Host None [] (λ _, Completes))
      (World {["HOME" := "/root"]} [] [] [])
    = (1%Z, World {["HOME" := "/root"]}
              ["No .env file found";
               "❌ No HTML files found. Run 'npm run dev' first."] [] []).
Proof.
  exact (absent_dotenv_is_reported (Host None [] (λ _, Completes))
           (World {["HOME" := "/root"]} [] [] []) eq_refl).
Defined.




End Loader.

(** ** Report discovery and delivery *)

Section Delivery.

#[local] Arguments String.append !_ _ / : simpl nomatch.

Lemma after_prefix_spec (pre s rest : string) :
  Str.after_prefix pre s = Some rest ↔ s = pre +:+ rest.
Proof.
  revert s. induction pre as [|a pre IH]; intros s; simpl.
  - split; [by intros [= ->] | by intros ->].
  - destruct s as [|b s]; [done|].
    destruct (Ascii.eqb a b) eqn:Hab.
    + apply Ascii.eqb_eq in Hab as ->. rewrite IH.
      split; [by intros -> | by intros [= ->]].
    + apply Ascii.eqb_neq in Hab. split; [done | by intros [= <- _]].
Qed.

Lemma has_suffix_spec (suf s : string) :
  Str.has_suffix suf s = true ↔ ∃ mid, s = mid +:+ suf.
Proof.
  induction s as [|c s IH].
  - change (Str.has_suffix suf "") with (String.eqb "" suf || false).
    rewrite orb_false_r, String.eqb_eq. split.
    + intros <-. by exists "".
    + intros [[|??] Hm]; [done | discriminate].
  - change (Str.has_suffix suf (String c s))
      with (String.eqb (String c s) suf || Str.has_suffix suf s).
    rewrite orb_true_iff, String.eqb_eq, IH. split.
    + intros [<- | [mid ->]]; [by exists "" | by exists (String c mid)].
    + intros [[|c' mid] Hm]; [by left|]. right.
      injection Hm as -> ->. by exists mid.
Qed.

Lemma matches_pattern_spec (n : string) :
  matches_pattern n = true
  ↔ ∃ mid, n = "daily-brief-" +:+ mid +:+ ".html".
Proof.
  unfold matches_pattern. split.
  - destruct (Str.after_prefix _ n) as [rest|] eqn:Hp; [|done].
    apply after_prefix_spec in Hp as ->.
    intros [mid ->]%has_suffix_spec. by exists mid.
  - intros [mid ->].
    rewrite (proj2 (after_prefix_spec "daily-brief-" _ (mid +:+ ".html")))
      by done.
    apply has_suffix_spec. by exists mid.
Qed.

Lemma elem_of_glob (dir : list file) (f : file) :
  f ∈ glob dir
  ↔ f ∈ dir ∧ ∃ mid, name f = "daily-brief-" +:+ mid +:+ ".html".
Proof.
  unfold glob. rewrite list_elem_of_filter, matches_pattern_spec. tauto.
Qed.

Lemma max_by_mtime_spec (first : file) (rest : list file) :
  max_by_mtime first rest ∈ first :: rest
  ∧ ∀ f, f ∈ first :: rest →
      (st_mtime f ≤ st_mtime (max_by_mtime first rest))%Z.
Proof.
  revert first. induction rest as [|g rest IH]; intros first.
  - split; [by left|]. intros f ->%list_elem_of_singleton. simpl. lia.
  - unfold max_by_mtime in *. simpl.
    destruct (IH (if (st_mtime first <? st_mtime g)%Z then g else first))
      as [Hin Hmax].
    split.
    + apply elem_of_cons in Hin as [-> | Hin].
      * destruct (_ <? _)%Z; [by right; left | by left].
      * by right; right.
    + intros f Hf.
      assert (st_mtime first ≤ st_mtime
                (if (st_mtime first <? st_mtime g)%Z then g else first)
              ∧ st_mtime g ≤ st_mtime
                  (if (st_mtime first <? st_mtime g)%Z then g else first))%Z
        as [H1 H2] by (destruct (Z.ltb_spec (st_mtime first) (st_mtime g)); lia).
      pose proof (Hmax _ (list_elem_of_here _ _)) as Hhead.
      apply elem_of_cons in Hf as [-> | Hf]; [lia|].
      apply elem_of_cons in Hf as [-> | Hf]; [lia|].
      apply Hmax. by right.
Qed.

Lemma for_each_print {A} (xs : list A) (f : A → string) (w : world) :
  for_each xs (λ x, print (f x)) w
  = (tt, World (environ w) (stdout w ++ map f xs) (opened w) (smtp_log w)).
Proof.
  revert w. induction xs as [|x xs IH]; intros w.
  - simpl. rewrite app_nil_r. by destruct w.
  - change (for_each (x :: xs) (λ x, print (f x)) w)
      with (for_each xs (λ x, print (f x)) (print (f x) w).2).
    rewrite IH. simpl. by rewrite <- app_assoc.
Qed.

(** The three ways [send_test_email] ends. *)

Lemma send_no_report (h : host) (w : world) :
  glob (output_dir h) = [] →
  send_test_email h w
  = (false,
     World (environ w)
       (stdout w ++ ["❌ No HTML files found. Run 'npm run dev' first."])
       (opened w) (smtp_log w)).
Proof. intros Hg. unfold send_test_email. by rewrite Hg. Qed.

Lemma send_missing (h : host) (w : world) (first : file) (rest : list file) :
  glob (output_dir h) = first :: rest →
  missing_vars (environ w) ≠ [] →
  send_test_email h w
  = (false,
     World (environ w)
       (stdout w
        ++ ["📧 Using HTML file: " +:+ path (max_by_mtime first rest);
            "❌ Missing environment variables: "
            +:+ Str.join ", " (missing_vars (environ w));
            "Set these in your .env file:"]
        ++ map hint_line (missing_vars (environ w)))
       (opened w ++ [path (max_by_mtime first rest)]) (smtp_log w)).
Proof.
  intros Hg Hm. unfold send_test_email. rewrite Hg.
  unfold mbind, M_bind, print, open, getenviron. simpl.
  destruct (missing_vars (environ w)) as [|v vs] eqn:Hv; [done|].
  rewrite (for_each_print _ hint_line). simpl.
  by rewrite <- !app_assoc.
Qed.

Lemma send_attempt (h : host) (w : world) (first : file) (rest : list file) :
  glob (output_dir h) = first :: rest →
  missing_vars (environ w) = [] →
  let latest := max_by_mtime first rest in
  let s := session_for (environ w) (content latest) in
  let said :=
    stdout w
    ++ ["📧 Using HTML file: " +:+ path latest;
        "📤 Sending test email...";
        "   From: " +:+ login_user s;
        "   To: " +:+ rcpt_to s;
        "   Subject: " +:+ Subject (data s)] in
  send_test_email h w
  = match transport h s with
    | Completes =>
        (true,
         World (environ w)
           (said ++ ["✅ HTML email sent successfully!";
                     "🔍 Check your email client to verify HTML rendering"])
           (opened w ++ [path latest]) (smtp_log w ++ [s]))
    | Raises e =>
        (false,
         World (environ w) (said ++ ["❌ Failed to send email: " +:+ e])
           (opened w ++ [path latest]) (smtp_log w ++ [s]))
    end.
Proof.
  intros Hg Hm. unfold send_test_email. rewrite Hg.
  unfold mbind, M_bind, print, open, getenviron, smtp. simpl.
  rewrite Hm. fold (session_for (environ w) (content (max_by_mtime first rest))).
  destruct (transport h _); simpl; by rewrite <- !app_assoc.
Qed.




(** C1: when some entry of [output/] matches [daily-brief-*.html], the
    file that is opened is a match whose modification time no other
    match exceeds, and the HTML part of whatever is handed to the mail
    transport is the text of that file. *)
Theorem latest_report_is_read_and_sent (h : host) (w : world) :
  glob (output_dir h) ≠ [] →
  ∃ latest,
    (latest ∈ output_dir h
     ∧ ∃ mid, name latest = "daily-brief-" +:+ mid +:+ ".html")
    ∧ (∀ f mid, f ∈ output_dir h →
         name f = "daily-brief-" +:+ mid +:+ ".html" →
         (st_mtime f ≤ st_mtime latest)%Z)
    ∧ opened (send_test_email h w).2 = opened w ++ [path latest]
    ∧ (smtp_log (send_test_email h w).2 = smtp_log w
       ∨ ∃ s, smtp_log (send_test_email h w).2 = smtp_log w ++ [s]
              ∧ parts (data s) = [("html", content latest)])
    ∧ (missing_vars (environ w) = [] →
       ∃ s, smtp_log (send_test_email h w).2 = smtp_log w ++ [s]
            ∧ parts (data s) = [("html", content latest)]).
Proof.
  intros Hne. destruct (glob (output_dir h)) as [|first rest] eqn:Hg; [done|].
  destruct (max_by_mtime_spec first rest) as [Hin Hmax].
  rewrite <- Hg in Hin. exists (max_by_mtime first rest).
  split; [by apply elem_of_glob|].
  split.
  { intros f mid Hf Hn. apply Hmax. rewrite <- Hg. apply elem_of_glob. eauto. }
  assert (missing_vars (environ w) = [] →
          ∃ s, smtp_log (send_test_email h w).2 = smtp_log w ++ [s]
               ∧ parts (data s)
                 = [("html", content (max_by_mtime first rest))]) as Hsent.
  { intros Hm. rewrite (send_attempt h w first rest Hg Hm).
    eexists. by destruct (transport h _). }
  destruct (decide (missing_vars (environ w) = [])) as [Hm|Hm].
  - split; [|by auto].
    rewrite (send_attempt h w first rest Hg Hm). by destruct (transport h _).
  - split; [|split; [|done]];
      rewrite (send_missing h w first rest Hg Hm); simpl; by auto.
Qed.

Lemma latest_report_is_read_and_sent_witness :
  ∃ latest,
    (latest ∈ [File "daily-brief-mon.html" 10 "<p>mon</p>";
               File "notes.html" 99 "<p>notes</p>";
               File "daily-brief-tue.html" 20 "<p>tue</p>"]
     ∧ ∃ mid, name latest = "daily-brief-" +:+ mid +:+ ".html")
    ∧ (∀ f mid,
         f ∈ [File "daily-brief-mon.html" 10 "<p>mon</p>";
              File "notes.html" 99 "<p>notes</p>";
              File "daily-brief-tue.html" 20 "<p>tue</p>"] →
         name f = "daily-brief-" +:+ mid +:+ ".html" →
         (st_mtime f ≤ st_mtime latest)%Z)
    ∧ opened (send_test_email
                (Host None
                   [File "daily-brief-mon.html" 10 "<p>mon</p>";
                    File "notes.html" 99 "<p>notes</p>";
                    File "daily-brief-tue.html" 20 "<p>tue</p>"]
                   (λ _, Completes))
                (World ∅ [] [] [])).2
      = [] ++ [path latest].
Proof.
  destruct (latest_report_is_read_and_sent
              (Host None
                 [File "daily-brief-mon.html" 10 "<p>mon</p>";
                  File "notes.html" 99 "<p>notes</p>";
                  File "daily-brief-tue.html" 20 "<p>tue</p>"]
                 (λ _, Completes))
              (World ∅ [] [] []))
    as (latest & Hmatch & Hmax & Hopen & _).
  - discriminate.
  - exists latest. auto.
Defined.







End Delivery.

(** ** Further properties of the line parser *)

Section Parser.

#[local] Arguments String.append !_ _ / : simpl nomatch.

Lemma strip_idemp (s : string) : Str.strip (Str.strip s) = Str.strip s.
Proof.
  unfold Str.strip at 2. rewrite strip_lstrip. apply strip_rstrip.
Qed.

Lemma parse_line_strip (line : string) :
  parse_line (Str.strip line) = parse_line line.
Proof. unfold parse_line. by rewrite strip_idemp. Qed.

Lemma lstrip_app_blank (pad s : string) :
  Str.lstrip pad = "" → Str.lstrip (pad +:+ s) = Str.lstrip s.
Proof.
  induction pad as [|c pad IH]; simpl; [done|].
  by destruct (Str.isspace c).
Qed.

Lemma rstrip_app_blank (s pad : string) :
  Str.rstrip pad = "" → Str.rstrip (s +:+ pad) = Str.rstrip s.
Proof.
  intros Hp. induction s as [|c s IH]; simpl; [done|]. by rewrite IH.
Qed.

Lemma strip_padded (pad1 s pad2 : string) :
  Str.lstrip pad1 = "" → Str.rstrip pad2 = "" →
  Str.strip (pad1 +:+ s +:+ pad2) = Str.strip s.
Proof.
  intros H1 H2. unfold Str.strip.
  rewrite <- rstrip_lstrip, lstrip_app_blank, rstrip_lstrip by done.
  by rewrite rstrip_app_blank.
Qed.

(** What a line that is not skipped looks like once stripped. *)
Lemma parse_line_Some_inv (line key value : string) :
  parse_line line = Some (key, value) →
  ∃ before after,
    Str.strip line = before +:+ String equals after
    ∧ Str.contains equals before = false
    ∧ Str.startswith hash (Str.strip before) = false
    ∧ key = Str.strip before
    ∧ value = unquote (Str.strip after)
    ∧ Str.is_empty value = false.
Proof.
  rewrite <- parse_line_strip. intros Hp.
  destruct (Str.contains equals (Str.strip line)) eqn:Hc.
  - apply first_equals in Hc as (before & after & Hl & Hb).
    exists before, after. rewrite Hl in Hp.
    rewrite parse_line_around_equals in Hp by done.
    destruct (Str.startswith hash (Str.strip before)) eqn:Hh; [done|].
    destruct (Str.is_empty (unquote (Str.strip after))) eqn:He; [done|].
    injection Hp as <- <-. by repeat split.
  - by rewrite parse_line_no_separator in Hp.
Qed.

(** X1: every entry the loader writes has a key free of [=], free of
    surrounding white space and not beginning with [#], and a value that
    is not empty. *)
Theorem entries_are_well_formed (line key value : string) :
  parse_line line = Some (key, value) →
  Str.contains equals key = false
  ∧ Str.strip key = key
  ∧ Str.startswith hash key = false
  ∧ value ≠ "".
Proof.
  intros (before & after & _ & Hb & Hh & -> & -> & He)%parse_line_Some_inv.
  repeat split.
  - by apply contains_strip.
  - apply strip_idemp.
  - done.
  - by apply is_empty_false.
Qed.

Lemma entries_are_well_formed_witness :
  Str.contains equals "API KEY" = false
  ∧ Str.strip "API KEY" = "API KEY"
  ∧ Str.startswith hash "API KEY" = false
  ∧ "p=q #r" ≠ "".
Proof.
  apply (entries_are_well_formed "  API KEY = 'p=q #r'  " "API KEY" "p=q #r").
  reflexivity.
Defined.

(** X2: white space around the line, around the key and around the raw
    value never changes what the line contributes; in particular the
    line terminator and indentation are immaterial. *)
Theorem white_space_is_immaterial :
  (∀ pad1 line pad2,
     Str.lstrip pad1 = "" → Str.rstrip pad2 = "" →
     parse_line (pad1 +:+ line +:+ pad2) = parse_line line)
  ∧ (∀ before after,
       Str.contains equals before = false →
       parse_line (before +:+ String equals after)
       = parse_line (Str.strip before +:+ String equals (Str.strip after))).
Proof.
  split.
  - intros pad1 line pad2 H1 H2.
    rewrite <- (parse_line_strip (pad1 +:+ line +:+ pad2)).
    rewrite strip_padded by done. apply parse_line_strip.
  - intros before after Hb.
    rewrite !parse_line_around_equals by auto using contains_strip.
    by rewrite !strip_idemp.
Qed.

Lemma white_space_is_immaterial_witness :
  parse_line (String.append "   " (String.append "A=b" (String "010"%char "")))
  = parse_line "A=b"
  ∧ parse_line "  A  =  b  " = parse_line "A=b".
Proof.
  destruct white_space_is_immaterial as [Hpad Hsides]. split.
  - apply (Hpad "   " "A=b" (String "010"%char "")); reflexivity.
  - apply (Hsides "  A  " "  b  "). reflexivity.
Defined.

End Parser.

(** ** Further properties of the loader *)

Section LoaderEffects.

Lemma elem_of_entries (lines : list string) (k v : string) :
  (k, v) ∈ entries lines ↔ ∃ line, line ∈ lines ∧ parse_line line = Some (k, v).
Proof. apply list_elem_of_omap. Qed.

(** A key some assignment names ends with a value that does not depend
    on the environment the assignments started from. *)
Lemma assign_all_assigned (env1 env2 : gmap string string)
    (es : list (string * string)) (k : string) :
  k ∈ es.*1 → assign_all env1 es !! k = assign_all env2 es !! k.
Proof.
  revert env1 env2. induction es as [|[k' v'] es IH]; intros env1 env2 Hk.
  { by apply elem_of_nil in Hk. }
  simpl in *. destruct (decide (k ∈ es.*1)) as [Hin|Hout]; [by apply IH|].
  apply elem_of_cons in Hk as [-> | Hk]; [|done].
  fold (assign_all (<[k' := v']> env1) es) (assign_all (<[k' := v']> env2) es).
  rewrite !assign_all_frame by done. by rewrite !lookup_insert_eq.
Qed.

Lemma assign_all_lookup (env : gmap string string)
    (es : list (string * string)) (k : string) :
  (assign_all env es !! k = env !! k ∧ k ∉ es.*1)
  ∨ (∃ v, (k, v) ∈ es ∧ assign_all env es !! k = Some v).
Proof.
  revert env. induction es as [|[k' v'] es IH]; intros env.
  { left. split; [done | apply not_elem_of_nil]. }
  simpl. fold (assign_all (<[k' := v']> env) es).
  destruct (IH (<[k' := v']> env)) as [[-> Hout] | (v & Hin & ->)].
  - destruct (decide (k' = k)) as [-> | Hne].
    + right. exists v'. rewrite lookup_insert_eq. split; [by left | done].
    + left. rewrite lookup_insert_ne by done. split; [done|].
      by intros [? | ?]%elem_of_cons.
  - right. exists v. split; [by right | done].
Qed.

Lemma load_env_file_environ (h : host) (w : world) :
  environ (load_env_file h w).2
  = match dotenv h with
    | Some lines => assign_all (environ w) (entries lines)
    | None => environ w
    end.
Proof.
  destruct (dotenv h) as [lines|] eqn:Hd.
  - by rewrite (load_env_file_Some h lines).
  - by rewrite load_env_file_None.
Qed.

(** After loading, a key holds what it held before or a non-empty value
    some line of the file gave it. *)
Lemma loaded_lookup (h : host) (w : world) (k : string) :
  environ (load_env_file h w).2 !! k = environ w !! k
  ∨ ∃ lines line v,
      dotenv h = Some lines ∧ line ∈ lines ∧ parse_line line = Some (k, v)
      ∧ v ≠ "" ∧ environ (load_env_file h w).2 !! k = Some v.
Proof.
  rewrite load_env_file_environ. destruct (dotenv h) as [lines|]; [|by left].
  destruct (assign_all_lookup (environ w) (entries lines) k)
    as [[? _] | (v & Hin & Hv)]; [by left|].
  right. apply elem_of_entries in Hin as (line & Hl & Hp).
  exists lines, line, v.
  pose proof (parse_line_Some_inv _ _ _ Hp) as (?&?&_&_&_&_&_&He).
  apply is_empty_false in He. by repeat split.
Qed.

(** X3: the loader only adds or overwrites.  No key is removed, no
    value becomes empty that was not, so a required name that was set
    and non-empty before loading is so afterwards: loading can only
    shrink the list of missing names. *)
Theorem loader_never_unsets (h : host) (w : world) (var : string) :
  (is_Some (environ w !! var) →
   is_Some (environ (load_env_file h w).2 !! var))
  ∧ (unset (environ (load_env_file h w).2) var = true →
     unset (environ w) var = true)
  ∧ (var ∈ missing_vars (environ (load_env_file h w).2) →
     var ∈ missing_vars (environ w)).
Proof.
  assert (unset (environ (load_env_file h w).2) var = true →
          unset (environ w) var = true) as Hunset.
  { unfold unset.
    destruct (loaded_lookup h w var) as [-> | (?&?&v&_&_&_&Hv&->)]; [done|].
    intros He. by apply is_empty_true in He. }
  split; [|split; [done|]].
  - destruct (loaded_lookup h w var) as [-> | (?&?&v&_&_&_&_&->)]; by eauto.
  - unfold missing_vars. rewrite !list_elem_of_filter.
    intros [Hu Hr]. split; [by apply Hunset | done].
Qed.

Lemma loader_never_unsets_witness :
  is_Some (environ (load_env_file
                      (Host (Some ["EMAIL_RECIPIENT="; "OTHER=x"]) []
                         (λ _, Completes))
                      (World {["EMAIL_RECIPIENT" := "me@x"]} [] [] [])).2
           !! "EMAIL_RECIPIENT")
  ∧ unset ({["EMAIL_RECIPIENT" := "me@x"]} : gmap string string)
      "GMAIL_USERNAME" = true
  ∧ "GMAIL_USERNAME"
    ∈ missing_vars ({["EMAIL_RECIPIENT" := "me@x"]} : gmap string string).
Proof.
  destruct (loader_never_unsets
              (Host (Some ["EMAIL_RECIPIENT="; "OTHER=x"]) [] (λ _, Completes))
              (World {["EMAIL_RECIPIENT" := "me@x"]} [] [] [])
              "EMAIL_RECIPIENT") as (Hkeep & _ & _).
  destruct (loader_never_unsets
              (Host (Some ["EMAIL_RECIPIENT="; "OTHER=x"]) [] (λ _, Completes))
              (World {["EMAIL_RECIPIENT" := "me@x"]} [] [] [])
              "GMAIL_USERNAME") as (_ & Hunset & Hmissing).
  split; [|split].
  - apply Hkeep. by eexists.
  - apply Hunset. reflexivity.
  - apply Hmissing. vm_compute. by left.
Defined.

(** X4: loading the same file a second time leaves the environment as
    the first loading left it. *)
Theorem loading_twice_is_loading_once (h : host) (w : world) :
  environ (load_env_file h (load_env_file h w).2).2
  = environ (load_env_file h w).2.
Proof.
  rewrite !load_env_file_environ. destruct (dotenv h) as [lines|]; [|done].
  apply map_eq. intros k.
  destruct (decide (k ∈ (entries lines).*1)) as [Hin|Hout].
  - by apply assign_all_assigned.
  - by rewrite assign_all_frame.
Qed.

(** X5: a file none of whose lines is an assignment (an empty file, or
    only comments, blank lines and lines without [=] or without a
    value) changes nothing in the environment; the run still opens the
    file and prints the closing line, and nothing else. *)
Theorem file_without_entries_changes_nothing (h : host) (w : world)
    (lines : list string) :
  dotenv h = Some lines →
  (∀ line, line ∈ lines → parse_line line = None) →
  load_env_file h w
  = (tt, World (environ w)
               (stdout w ++ ["✅ Loaded environment variables from .env file"])
               (opened w ++ [".env"]) (smtp_log w)).
Proof.
  intros Hd Hnone. rewrite (load_env_file_Some h lines) by done.
  assert (entries lines = []) as ->; [|done].
  destruct (entries lines) as [|[k v] es] eqn:He; [done|].
  assert ((k, v) ∈ entries lines) as Hin by (rewrite He; by left).
  apply elem_of_entries in Hin as (line & Hl & Hp).
  by rewrite (Hnone line Hl) in Hp.
Qed.

Lemma file_without_entries_changes_nothing_witness :
  load_env_file (Host (Some ["# settings"; ""; "EMPTY="; "no separator"]) []
                   (λ _, Completes))
    (World {["A" := "1"]} [] [] [])
  = (tt, World {["A" := "1"]}
               ["✅ Loaded environment variables from .env file"]
               [".env"] []).
Proof.
  refine (file_without_entries_changes_nothing
            (Host (Some ["# settings"; ""; "EMPTY="; "no separator"]) []
               (λ _, Completes))
            (World {["A" := "1"]} [] [] []) _ eq_refl _).
  intros line Hin.
  repeat (apply elem_of_cons in Hin as [-> | Hin]; [reflexivity|]).
  by apply elem_of_nil in Hin.
Defined.

End LoaderEffects.

(** ** Further properties of discovery and delivery *)

Section DeliveryEffects.

Lemma max_by_mtime_snoc (first : file) (rest : list file) (g : file) :
  max_by_mtime first (rest ++ [g])
  = if (st_mtime (max_by_mtime first rest) <? st_mtime g)%Z
    then g else max_by_mtime first rest.
Proof. unfold max_by_mtime. by rewrite fold_left_app. Qed.

(** The maximum splits the list: strictly older files before it, files
    no newer after it. *)
Lemma max_by_mtime_first (first : file) (rest : list file) :
  ∃ earlier later,
    first :: rest = earlier ++ max_by_mtime first rest :: later
    ∧ (∀ f, f ∈ earlier →
         (st_mtime f < st_mtime (max_by_mtime first rest))%Z)
    ∧ (∀ f, f ∈ later →
         (st_mtime f ≤ st_mtime (max_by_mtime first rest))%Z).
Proof.
  induction rest as [|g rest IH] using rev_ind.
  { exists [], []. repeat split; by intros f ?%elem_of_nil. }
  destruct IH as (earlier & later & Heq & Hbefore & Hafter).
  rewrite max_by_mtime_snoc.
  destruct (Z.ltb_spec (st_mtime (max_by_mtime first rest)) (st_mtime g))
    as [Hlt|Hge].
  - exists (first :: rest), []. split; [by rewrite app_comm_cons|].
    split; [|by intros f ?%elem_of_nil].
    intros f Hf. rewrite Heq in Hf.
    apply elem_of_app in Hf as [Hf | Hf].
    + specialize (Hbefore f Hf). lia.
    + apply elem_of_cons in Hf as [-> | Hf]; [done|].
      specialize (Hafter f Hf). lia.
  - exists earlier, (later ++ [g]). split.
    + rewrite app_comm_cons, Heq. by rewrite <- app_assoc.
    + split; [done|]. intros f [Hf | ->%list_elem_of_singleton]%elem_of_app;
        [by apply Hafter | done].
Qed.

(** X6: among the matches the file that is opened is the first, in
    listing order, of those with the greatest modification time: every
    match listed before it is strictly older, every match listed after
    it is no newer. *)
Theorem ties_go_to_the_first_listed (h : host) (w : world) :
  glob (output_dir h) ≠ [] →
  ∃ earlier latest later,
    glob (output_dir h) = earlier ++ latest :: later
    ∧ (∀ f, f ∈ earlier → (st_mtime f < st_mtime latest)%Z)
    ∧ (∀ f, f ∈ later → (st_mtime f ≤ st_mtime latest)%Z)
    ∧ opened (send_test_email h w).2 = opened w ++ [path latest].
Proof.
  intros Hne. destruct (glob (output_dir h)) as [|first rest] eqn:Hg; [done|].
  destruct (max_by_mtime_first first rest) as (earlier & later & Heq & Hb & Ha).
  exists earlier, (max_by_mtime first rest), later.
  repeat split; auto.
  destruct (decide (missing_vars (environ w) = [])) as [Hm|Hm].
  - rewrite (send_attempt h w first rest Hg Hm). by destruct (transport h _).
  - by rewrite (send_missing h w first rest Hg Hm).
Qed.

Lemma ties_go_to_the_first_listed_witness :
  ∃ earlier latest later,
    [File "daily-brief-a.html" 3 "a"; File "daily-brief-b.html" 7 "b";
     File "daily-brief-c.html" 7 "c"]
    = earlier ++ latest :: later
    ∧ (∀ f, f ∈ earlier → (st_mtime f < st_mtime latest)%Z)
    ∧ (∀ f, f ∈ later → (st_mtime f ≤ st_mtime latest)%Z)
    ∧ opened (send_test_email
                (Host None
                   [File "daily-brief-a.html" 3 "a";
                    File "daily-brief-b.html" 7 "b";
                    File "daily-brief-c.html" 7 "c"] (λ _, Completes))
                (World ∅ [] [] [])).2
      = [] ++ [path latest].
Proof.
  refine (ties_go_to_the_first_listed
            (Host None
               [File "daily-brief-a.html" 3 "a";
                File "daily-brief-b.html" 7 "b";
                File "daily-brief-c.html" 7 "c"] (λ _, Completes))
            (World ∅ [] [] []) _).
  discriminate.
Defined.

(** X7: [send_test_email] never changes the environment, opens at most
    one file, which is a match of [output/], starts at most one
    session, and always prints something; what was on the console, in
    the list of opened files and in the session log before stays
    there. *)
Theorem send_test_email_footprint (h : host) (w : world) :
  environ (send_test_email h w).2 = environ w
  ∧ (opened (send_test_email h w).2 = opened w
     ∨ ∃ f, f ∈ glob (output_dir h)
            ∧ opened (send_test_email h w).2 = opened w ++ [path f])
  ∧ (smtp_log (send_test_email h w).2 = smtp_log w
     ∨ ∃ s, smtp_log (send_test_email h w).2 = smtp_log w ++ [s])
  ∧ ∃ line out, stdout (send_test_email h w).2 = stdout w ++ line :: out.
Proof.
  destruct (glob (output_dir h)) as [|first rest] eqn:Hg.
  { rewrite (send_no_report h w) by done. simpl.
    repeat split; auto. by eexists _, []. }
  assert (max_by_mtime first rest ∈ first :: rest) as Hin
    by apply max_by_mtime_spec.
  destruct (decide (missing_vars (environ w) = [])) as [Hm|Hm].
  - rewrite (send_attempt h w first rest Hg Hm).
    destruct (transport h _); simpl; rewrite <- !app_assoc;
      (split; [done|]); (split; [by right; eexists|]);
      (split; [by right; eexists|]); by eexists _, _.
  - rewrite (send_missing h w first rest Hg Hm). simpl.
    split; [done|]. split; [by right; eexists|]. split; [by left|].
    by eexists _, _.
Qed.

Lemma missing_vars_nil (env : gmap string string) :
  missing_vars env = [] ↔ ∀ var, var ∈ required_vars → unset env var = false.
Proof.
  split.
  - intros Hm var Hvar. destruct (unset env var) eqn:Hu; [|done].
    assert (var ∈ missing_vars env) as Hin
      by (unfold missing_vars; by apply list_elem_of_filter).
    rewrite Hm in Hin. by apply elem_of_nil in Hin.
  - intros Hall. destruct (missing_vars env) as [|v vs] eqn:Hm; [done|].
    assert (v ∈ missing_vars env) as Hin by (rewrite Hm; by left).
    unfold missing_vars in Hin. apply list_elem_of_filter in Hin as [Hu Hr].
    by rewrite (Hall v Hr) in Hu.
Qed.

Lemma unset_false (env : gmap string string) (var : string) :
  unset env var = false ↔ ∃ v, env !! var = Some v ∧ v ≠ "".
Proof.
  unfold unset. destruct (env !! var) as [v|].
  - rewrite is_empty_false. split; [by eauto | by intros (? & [= <-] & ?)].
  - split; [done | by intros (? & ? & _)].
Qed.


(** X9: when a session is started it is addressed to [smtp.gmail.com],
    port 587, and carries the values the environment holds for the
    three names, each of them present and non-empty: login and envelope
    sender are [GMAIL_USERNAME], the password is [GMAIL_APP_PASSWORD],
    recipient and [To] are [EMAIL_RECIPIENT], and the message has the
    one HTML part. *)
Theorem session_carries_environment (h : host) (w : world) (s : smtp_session) :
  smtp_log (send_test_email h w).2 = smtp_log w ++ [s] →
  ∃ user password recipient html,
    environ w !! "GMAIL_USERNAME" = Some user ∧ user ≠ ""
    ∧ environ w !! "GMAIL_APP_PASSWORD" = Some password ∧ password ≠ ""
    ∧ environ w !! "EMAIL_RECIPIENT" = Some recipient ∧ recipient ≠ ""
    ∧ s = Session "smtp.gmail.com" 587 user password user recipient
            (Message "alternative" "Daily Brief - Test Email"
               ("Daily Brief Bot <" +:+ user +:+ ">") recipient
               [("html", html)]).
Proof.
  assert (∀ l : list smtp_session, l ≠ l ++ [s]) as Hgrow.
  { intros l Hl. apply (f_equal length) in Hl.
    rewrite length_app in Hl. simpl in Hl. lia. }
  destruct (glob (output_dir h)) as [|first rest] eqn:Hg.
  { rewrite (send_no_report h w) by done. simpl. intros ?. by edestruct Hgrow. }
  destruct (decide (missing_vars (environ w) = [])) as [Hm|Hm]; cycle 1.
  { rewrite (send_missing h w first rest Hg Hm). simpl.
    intros ?. by edestruct Hgrow. }
  intros Hlog.
  assert (s = session_for (environ w) (content (max_by_mtime first rest)))
    as ->.
  { rewrite (send_attempt h w first rest Hg Hm) in Hlog.
    destruct (transport h _); simpl in Hlog;
      by apply app_inv_head in Hlog as [= <-]. }
  pose proof (proj1 (missing_vars_nil (environ w)) Hm) as Hset.
  destruct (proj1 (unset_false (environ w) "GMAIL_USERNAME"))
    as (user & Hu & ?); [apply Hset; unfold required_vars; set_solver|].
  destruct (proj1 (unset_false (environ w) "GMAIL_APP_PASSWORD"))
    as (password & Hp & ?); [apply Hset; unfold required_vars; set_solver|].
  destruct (proj1 (unset_false (environ w) "EMAIL_RECIPIENT"))
    as (recipient & Hr & ?); [apply Hset; unfold required_vars; set_solver|].
  exists user, password, recipient, (content (max_by_mtime first rest)).
  repeat split; auto.
  unfold session_for, environ_get. by rewrite Hu, Hp, Hr.
Qed.

Lemma session_carries_environment_witness :
  ∃ user password recipient html,
    ({["GMAIL_USERNAME" := "me"; "GMAIL_APP_PASSWORD" := "pw";
       "EMAIL_RECIPIENT" := "you"]} : gmap string string)
      !! "GMAIL_USERNAME" = Some user ∧ user ≠ ""
    ∧ ({["GMAIL_USERNAME" := "me"; "GMAIL_APP_PASSWORD" := "pw";
         "EMAIL_RECIPIENT" := "you"]} : gmap string string)
        !! "GMAIL_APP_PASSWORD" = Some password ∧ password ≠ ""
    ∧ ({["GMAIL_USERNAME" := "me"; "GMAIL_APP_PASSWORD" := "pw";
         "EMAIL_RECIPIENT" := "you"]} : gmap string string)
        !! "EMAIL_RECIPIENT" = Some recipient ∧ recipient ≠ ""
    ∧ Session "smtp.gmail.com" 587 "me" "pw" "me" "you"
        (Message "alternative" "Daily Brief - Test Email"
           "Daily Brief Bot <me>" "you" [("html", "<p>hi</p>")])
      = Session "smtp.gmail.com" 587 user password user recipient
          (Message "alternative" "Daily Brief - Test Email"
             ("Daily Brief Bot <" +:+ user +:+ ">") recipient
             [("html", html)]).
Proof.
  refine (session_carries_environment
            (Host None [File "daily-brief-1.html" 1 "<p>hi</p>"]
               (λ _, Raises "refused"))
            (World {["GMAIL_USERNAME" := "me"; "GMAIL_APP_PASSWORD" := "pw";
                     "EMAIL_RECIPIENT" := "you"]} [] [] [])
            _ _).
  reflexivity.
Defined.



(** X11: the missing names are reported in the fixed order
    [GMAIL_USERNAME], [GMAIL_APP_PASSWORD], [EMAIL_RECIPIENT], each at
    most once, so never more than three; and the list is empty exactly
    when each of the three is set to a non-empty value. *)
Theorem missing_names_keep_order (env : gmap string string) :
  missing_vars env `sublist_of` required_vars
  ∧ NoDup (missing_vars env)
  ∧ length (missing_vars env) ≤ 3
  ∧ (missing_vars env = []
     ↔ ∀ var, var ∈ required_vars → ∃ v, env !! var = Some v ∧ v ≠ "").
Proof.
  assert (missing_vars env `sublist_of` required_vars) as Hsub
    by apply sublist_filter.
  split; [done|]. split; [|split].
  - apply (sublist_NoDup _ required_vars); [|done].
    apply (bool_decide_unpack _). reflexivity.
  - by apply sublist_length in Hsub.
  - rewrite missing_vars_nil. split; intros H var Hvar;
      by apply unset_false, H.
Qed.

(** X12: the password reaches the console only through what the
    transport answers.  Two runs of [send_test_email] that differ only
    in a non-empty [GMAIL_APP_PASSWORD], and whose transport ends the
    same way on the two sessions, print the same lines and return the
    same result. *)
Theorem password_stays_off_the_console (h : host) (w : world)
    (p1 p2 : string) :
  p1 ≠ "" → p2 ≠ "" →
  (∀ html,
     transport h (session_for (<["GMAIL_APP_PASSWORD" := p1]> (environ w)) html)
     = transport h
         (session_for (<["GMAIL_APP_PASSWORD" := p2]> (environ w)) html)) →
  (send_test_email h
     (World (<["GMAIL_APP_PASSWORD" := p1]> (environ w)) (stdout w)
        (opened w) (smtp_log w))).1
  = (send_test_email h
       (World (<["GMAIL_APP_PASSWORD" := p2]> (environ w)) (stdout w)
          (opened w) (smtp_log w))).1
  ∧ stdout (send_test_email h
              (World (<["GMAIL_APP_PASSWORD" := p1]> (environ w)) (stdout w)
                 (opened w) (smtp_log w))).2
    = stdout (send_test_email h
                (World (<["GMAIL_APP_PASSWORD" := p2]> (environ w)) (stdout w)
                   (opened w) (smtp_log w))).2.
Proof.
  intros H1 H2 Hsame.
  set (e1 := <["GMAIL_APP_PASSWORD" := p1]> (environ w)).
  set (e2 := <["GMAIL_APP_PASSWORD" := p2]> (environ w)).
  assert (∀ var, unset e1 var = unset e2 var) as Hunset.
  { intros var. unfold unset, e1, e2.
    destruct (decide ("GMAIL_APP_PASSWORD" = var)) as [<- | Hne].
    - rewrite !lookup_insert_eq. by destruct p1, p2.
    - by rewrite !lookup_insert_ne. }
  assert (missing_vars e1 = missing_vars e2) as Hmiss.
  { unfold missing_vars. apply list_filter_iff. intros var.
    by rewrite Hunset. }
  assert (∀ var, var ≠ "GMAIL_APP_PASSWORD" →
            environ_get e1 var = environ_get e2 var) as Hget.
  { intros var Hne. unfold environ_get, e1, e2.
    by rewrite !lookup_insert_ne. }
  destruct (glob (output_dir h)) as [|first rest] eqn:Hg.
  { by rewrite !send_no_report. }
  destruct (decide (missing_vars e1 = [])) as [Hm|Hm].
  - rewrite !(send_attempt h _ first rest Hg) by (simpl; congruence).
    simpl. fold e1 e2. rewrite <- Hsame.
    rewrite (Hget "GMAIL_USERNAME"), (Hget "EMAIL_RECIPIENT") by done.
    by destruct (transport h _).
  - rewrite !(send_missing h _ first rest Hg) by (simpl; congruence).
    simpl. fold e1 e2. by rewrite Hmiss.
Qed.

Lemma password_stays_off_the_console_witness :
  stdout (send_test_email
            (Host None [File "daily-brief-1.html" 1 "x"] (λ _, Completes))
            (World (<["GMAIL_APP_PASSWORD" := "hunter2"]>
                      {["GMAIL_USERNAME" := "me"; "EMAIL_RECIPIENT" := "you"]})
               [] [] [])).2
  = stdout (send_test_email
              (Host None [File "daily-brief-1.html" 1 "x"] (λ _, Completes))
              (World (<["GMAIL_APP_PASSWORD" := "correct horse"]>
                        {["GMAIL_USERNAME" := "me"; "EMAIL_RECIPIENT" := "you"]})
                 [] [] [])).2.
Proof.
  refine (proj2 (password_stays_off_the_console
                   (Host None [File "daily-brief-1.html" 1 "x"]
                      (λ _, Completes))
                   (World {["GMAIL_USERNAME" := "me"; "EMAIL_RECIPIENT" := "you"]}
                      [] [] [])
                   "hunter2" "correct horse" _ _ _)).
  - discriminate.
  - discriminate.
  - reflexivity.
Defined.

End DeliveryEffects.
